(** * lib9/notify.c: Plan 9 notes on top of POSIX signals

    A shallow embedding of [src/lib9/notify.c] and the properties of its
    note table, its configuration entry points and its dispatch
    trampoline.

    The C file talks to three collaborators that are not part of it:
    - [<signal.h>]: the signal numbers, [SA_RESTART] and the host's
      signal state (handler slots, process mask);
    - [libc.h]: the [noted] arguments [NCONT] and [NDFLT];
    - [_p9sigstr] / [_p9strsig]: the name table.
    Constants and the name table are taken as parameters; the host's
    signal state is a small explicit model, see [State]. *)

From stdpp Require Import gmap coGset strings list.

Set Default Proof Using "Type".

Open Scope Z_scope.

(** ** Constants of [<signal.h>]

    [SIGEMT] and [SIGINFO] exist on some hosts only; the table guards
    their rows with [#ifdef].  [dfl_fatal sig] tells whether the host's
    default action for [sig] ends the process (as opposed to ignoring
    the signal or stopping the process until it is continued). *)
Record Platform := mkPlatform {
  SIGHUP : Z;  SIGINT : Z;  SIGQUIT : Z;  SIGILL : Z;  SIGTRAP : Z;
  SIGEMT : option Z;
  SIGFPE : Z;  SIGBUS : Z;  SIGCHLD : Z;  SIGSYS : Z;  SIGPIPE : Z;
  SIGALRM : Z;  SIGTERM : Z;  SIGTSTP : Z;  SIGTTIN : Z;  SIGTTOU : Z;
  SIGXCPU : Z;  SIGXFSZ : Z;  SIGVTALRM : Z;  SIGUSR1 : Z;  SIGUSR2 : Z;
  SIGWINCH : Z;
  SIGINFO : option Z;
  SA_RESTART : Z;
  dfl_fatal : Z → bool
}.

(** Linux (x86, arm): neither [SIGEMT] nor [SIGINFO]. *)
Definition linux : Platform := {|
  SIGHUP := 1;  SIGINT := 2;  SIGQUIT := 3;  SIGILL := 4;  SIGTRAP := 5;
  SIGEMT := None;
  SIGFPE := 8;  SIGBUS := 7;  SIGCHLD := 17;  SIGSYS := 31;  SIGPIPE := 13;
  SIGALRM := 14;  SIGTERM := 15;  SIGTSTP := 20;  SIGTTIN := 21;
  SIGTTOU := 22;  SIGXCPU := 24;  SIGXFSZ := 25;  SIGVTALRM := 26;
  SIGUSR1 := 10;  SIGUSR2 := 12;  SIGWINCH := 28;
  SIGINFO := None;
  SA_RESTART := 0x10000000;
  dfl_fatal := λ s, negb (bool_decide (s ∈ [17; 18; 19; 20; 21; 22; 23; 28]))
|}.

(** The BSDs and Mac OS X: both optional signals exist. *)
Definition bsd : Platform := {|
  SIGHUP := 1;  SIGINT := 2;  SIGQUIT := 3;  SIGILL := 4;  SIGTRAP := 5;
  SIGEMT := Some 7;
  SIGFPE := 8;  SIGBUS := 10;  SIGCHLD := 20;  SIGSYS := 12;  SIGPIPE := 13;
  SIGALRM := 14;  SIGTERM := 15;  SIGTSTP := 18;  SIGTTIN := 21;
  SIGTTOU := 22;  SIGXCPU := 24;  SIGXFSZ := 25;  SIGVTALRM := 26;
  SIGUSR1 := 30;  SIGUSR2 := 31;  SIGWINCH := 28;
  SIGINFO := Some 29;
  SA_RESTART := 0x0002;
  dfl_fatal := λ s, negb (bool_decide (s ∈ [16; 17; 18; 19; 20; 21; 22; 23; 28; 29]))
|}.

(** C truth of an [int]. *)
Definition nonzero (x : Z) : bool := negb (x =? 0).

(** ** The note table *)

(** [struct Sig]. *)
Record Sig := mkSig {
  sig : Z;        (* signal number *)
  restart : Z;    (* do we restart the system call after this signal is handled? *)
  enabled : Z;    (* is this signal enabled (not masked)? *)
  notified : Z    (* do we call the notify function for this signal? *)
}.

#[global] Instance Sig_eq_dec : EqDecision Sig.
Proof. solve_decision. Defined.

(** A row under [#ifdef]: present when the host defines the signal. *)
Definition ifdef (osig : option Z) (row : Z → Sig) : list Sig :=
  match osig with
  | Some s => [row s]
  | None => []
  end.

(** [static Sig sigs[]]: initial settings; for current status, ask the
    kernel.  The rows for SIGABRT and SIGSEGV are commented out in the
    source. *)
Definition sigs (p : Platform) : list Sig :=
  [ mkSig (SIGHUP p) 0 1 1;
    mkSig (SIGINT p) 0 1 1;
    mkSig (SIGQUIT p) 0 1 1;
    mkSig (SIGILL p) 0 1 1;
    mkSig (SIGTRAP p) 0 1 1 ]
  ++ ifdef (SIGEMT p) (λ s, mkSig s 0 1 1) ++
  [ mkSig (SIGFPE p) 0 1 1;
    mkSig (SIGBUS p) 0 1 1;
    mkSig (SIGCHLD p) 1 0 1;
    mkSig (SIGSYS p) 0 1 1;
    mkSig (SIGPIPE p) 0 0 1;
    mkSig (SIGALRM p) 0 1 1;
    mkSig (SIGTERM p) 0 1 1;
    mkSig (SIGTSTP p) 1 0 1;
    mkSig (SIGTTIN p) 1 0 1;
    mkSig (SIGTTOU p) 1 0 1;
    mkSig (SIGXCPU p) 0 1 1;
    mkSig (SIGXFSZ p) 0 1 1;
    mkSig (SIGVTALRM p) 0 1 1;
    mkSig (SIGUSR1 p) 0 1 1;
    mkSig (SIGUSR2 p) 0 1 1;
    mkSig (SIGWINCH p) 1 0 1 ]
  ++ ifdef (SIGINFO p) (λ s, mkSig s 1 1 1).

(** [findsig]: the first row, in table order, whose number is [s]. *)
Fixpoint findsig (table : list Sig) (s : Z) : option Sig :=
  match table with
  | [] => None
  | r :: rest => if sig r =? s then Some r else findsig rest s
  end.

(** ** The host's signal state

    What [sigaction], [signal], [sigprocmask] and [raise] act on, as far
    as this file uses them. *)

(** Values of [sa_handler]: the two host constants, the two trampolines
    of this file, and code of somebody else. *)
Inductive Sighandler :=
  | SIG_DFL
  | SIG_IGN
  | Fsignotify
  | Fsignonotify
  | Fother (addr : positive).

#[global] Instance Sighandler_eq_dec : EqDecision Sighandler.
Proof. solve_decision. Defined.

(** [sigset_t]: a set of signal numbers; [sigfillset] gives all of them. *)
Abbreviation sigset_t := (coGset Z).

Definition sigemptyset : sigset_t := ∅.
Definition sigfillset : sigset_t := ⊤.
Definition sigaddset (set : sigset_t) (signo : Z) : sigset_t := set ∪ {[ signo ]}.

(** [struct sigaction]. *)
Record Sigaction := mkSigaction {
  sa_handler : Sighandler;
  sa_flags : Z;
  sa_mask : sigset_t
}.

(** [memset(&sa, 0, sizeof sa)]; [SIG_DFL] is the null handler. *)
Definition sa_zero : Sigaction :=
  {| sa_handler := SIG_DFL; sa_flags := 0; sa_mask := sigemptyset |}.

(** What a [p9setjmp] saves: the frame, named by the signal whose
    [signotify] activation took the snapshot, and the signal mask of
    that moment ([p9setjmp] is [sigsetjmp] asking for the mask). *)
Record Frame := mkFrame {
  frame_of : Z;
  saved_mask : sigset_t
}.

(** [Jmp]: a jump buffer; empty until a [p9setjmp] fills it.  The one
    buffer of the model is [onejmp], the buffer [getonejmp] returns:
    [_notejmpbuf] is taken at its initial value, the program being
    linked without the thread library. *)
Definition Jmp := option Frame.

(** The buffers a jump can aim at: the one [_notejmpbuf] gives, and
    buffers of code outside notify.c. *)
Inductive JmpRef :=
  | Notejmpbuf
  | Otherbuf (id : nat).

(** The state of the process: the host's handler slots (a slot that was
    never set holds the platform default), the mask of blocked signals
    as the process has asked for it, and the signals generated while
    blocked; then the statics of notify.c: [notifyf] (a function
    pointer, [None] for nil), the [init] flag of [notify], and [onejmp].

    Two things the host does are outside the calls modelled here.  A
    call that unblocks a pending signal does not deliver it: delivery is
    a step of the host, which enters [signotify] on its own.  And
    [blocked] records what was asked; what the host holds of it is
    [masked] below. *)
Record State := mkState {
  handlers : gmap Z Sigaction;
  blocked : sigset_t;
  pending : sigset_t;
  notifyf : option nat;
  init : Z;
  onejmp : Jmp
}.

Definition set_handlers (f : gmap Z Sigaction → gmap Z Sigaction) (st : State) : State :=
  mkState (f (handlers st)) (blocked st) (pending st) (notifyf st) (init st) (onejmp st).
Definition set_blocked (f : sigset_t → sigset_t) (st : State) : State :=
  mkState (handlers st) (f (blocked st)) (pending st) (notifyf st) (init st) (onejmp st).
Definition set_pending (f : sigset_t → sigset_t) (st : State) : State :=
  mkState (handlers st) (blocked st) (f (pending st)) (notifyf st) (init st) (onejmp st).
Definition set_notifyf (f : option nat) (st : State) : State :=
  mkState (handlers st) (blocked st) (pending st) f (init st) (onejmp st).
Definition set_init (i : Z) (st : State) : State :=
  mkState (handlers st) (blocked st) (pending st) (notifyf st) i (onejmp st).
Definition set_onejmp (j : Jmp) (st : State) : State :=
  mkState (handlers st) (blocked st) (pending st) (notifyf st) (init st) j.

(** [getonejmp]: what [_notejmpbuf] points to from the start; it gives
    the one buffer, which [p9setjmp] in [signotify] fills. *)
Definition getonejmp (st : State) : Jmp := onejmp st.

(** A process as it starts: every slot at the platform default, nothing
    blocked, statics zeroed. *)
Definition fresh : State :=
  {| handlers := ∅; blocked := ∅; pending := ∅;
     notifyf := None; init := 0; onejmp := None |}.

(** [sigaction(s, nil, &sa)]: read a slot. *)
Definition sigaction_get (s : Z) (st : State) : Sigaction :=
  default sa_zero (handlers st !! s).

(** [sigaction(s, &sa, nil)]: write a slot. *)
Definition sigaction_set (s : Z) (sa : Sigaction) (st : State) : State :=
  set_handlers <[ s := sa ]> st.

Inductive How := SIG_BLOCK | SIG_UNBLOCK | SIG_SETMASK.

(** [sigprocmask(how, &set, nil)], on the mask as asked for. *)
Definition sigprocmask (how : How) (set : sigset_t) (st : State) : State :=
  match how with
  | SIG_BLOCK => set_blocked (λ b, b ∪ set) st
  | SIG_UNBLOCK => set_blocked (λ b, b ∖ set) st
  | SIG_SETMASK => set_blocked (λ _, set) st
  end.

(** ** Control: return, non-local jump, process end

    A call either returns, or is unwinding towards the [p9setjmp] that
    filled a jump buffer ([Longjmp b v]: the [p9setjmp] that filled [b]
    will return [v]), or has ended the process. *)
Inductive Stop :=
  | Exited (status : Z)     (* _exit(status) *)
  | Aborted                 (* abort() *)
  | Signalled (signo : Z).  (* the default action of a signal *)

Inductive Outcome (A : Type) :=
  | Ret (a : A) (st : State)
  | Longjmp (b : JmpRef) (v : Z) (st : State)
  | Halt (w : Stop) (st : State).
Arguments Ret {A} a st.
Arguments Longjmp {A} b v st.
Arguments Halt {A} w st.

Definition M (A : Type) : Type := State → Outcome A.

#[global] Instance M_ret : MRet M := λ A a st, Ret a st.
#[global] Instance M_bind : MBind M := λ A B k m st,
  match m st with
  | Ret a st' => k a st'
  | Longjmp b v st' => Longjmp b v st'
  | Halt w st' => Halt w st'
  end.

(** A call that always returns, seen as a computation. *)
Definition lift (f : State → State) : M unit := λ st, Ret () (f st).

(** The status the parent sees is not zero. *)
Definition nonzero_status (w : Stop) : Prop :=
  match w with
  | Exited status => status ≠ 0
  | Aborted | Signalled _ => True
  end.

(** [signal(sig, h)]: puts [h] in the slot.  The flags and the handler
    mask that [signal] leaves beside it differ between hosts; they are
    written as 0 and empty here, and no statement below reads them. *)
Definition signal (signo : Z) (h : Sighandler) : M unit :=
  lift (sigaction_set signo {| sa_handler := h; sa_flags := 0; sa_mask := sigemptyset |}).

(** [_exit(status)]. *)
Definition _exit (status : Z) : M unit := λ st, Halt (Exited status) st.

(** [abort()]. *)
Definition abort : M unit := λ st, Halt Aborted st.

(** [p9longjmp(buf, v)]: never returns; the [p9setjmp] that filled [buf]
    returns [v], or 1 when [v] is 0. *)
Definition p9longjmp (b : JmpRef) (v : Z) : M unit :=
  λ st, Longjmp b (if v =? 0 then 1 else v) st.

(** [p9setjmp(j->b)] on the buffer [_notejmpbuf] gives: the frame and
    the signal mask of the moment go into the buffer. *)
Definition p9setjmp (frame : Z) (st : State) : State :=
  set_onejmp (Some (mkFrame frame (blocked st))) st.

(** What a jump to the note buffer does to the state on arrival: the
    signal mask is the one the buffer holds.  (A jump to a buffer no
    [p9setjmp] filled has no defined meaning in C; the model leaves the
    mask alone then.) *)
Definition sigrestore (st : State) : State :=
  match onejmp st with
  | Some fr => set_blocked (λ _, saved_mask fr) st
  | None => st
  end.

(** [switch(p9setjmp(buf))]: fill the buffer and run the code of
    [case 0]; a jump to the buffer out of that code makes [p9setjmp]
    return a second time, with the value the jump carries and the mask
    restored, and the switch is entered again.  A jump to another
    buffer is not for this [p9setjmp]: it goes on its way. *)
Definition switch_p9setjmp (frame : Z) (case0 : M unit) (again : Z → M unit) : M unit :=
  λ st, match case0 (p9setjmp frame st) with
        | Longjmp Notejmpbuf v st' => again v (sigrestore st')
        | o => o
        end.

Section Notify.

Context (p : Platform).

(** [raise(sig)]: a blocked signal stays pending; otherwise the slot
    decides.  At the platform default the default action is taken at
    once (a process that the action stops goes on when it is
    continued).  A signal somebody catches is handed to the host for
    delivery; notify.c never raises one, it resets the slot first.  It
    raises only the signal [signotify] was entered for, which is one
    the host lets a process catch and block. *)
Definition raise (signo : Z) : M unit := λ st,
  if decide (signo ∈ blocked st) then Ret () (set_pending (λ q, q ∪ {[ signo ]}) st)
  else match sa_handler (sigaction_get signo st) with
       | SIG_DFL => if dfl_fatal p signo then Halt (Signalled signo) st else Ret () st
       | SIG_IGN => Ret () st
       | _ => Ret () (set_pending (λ q, q ∪ {[ signo ]}) st)
       end.

(** [NCONT] and [NDFLT] of libc.h. *)
Context (NCONT NDFLT : Z).

(** The name table: [_p9sigstr(sig, tmp)] and [_p9strsig(msg)], which is
    0 for a name it does not know. *)
Context (_p9sigstr : Z → string) (_p9strsig : string → Z).

(** What the function behind a handler pointer does when called with
    [(nil, msg)]. *)
Context (code : nat → string → M unit).

(** The table [findsig] and [noteinit] walk; [sigs p] in the program. *)
Context (table : list Sig).

(** The body of [case 1] of [signotify]. *)
Definition signotify_dflt (signo : Z) : M unit :=
  signal signo SIG_DFL ;;
  raise signo ;;
  _exit 1.

(** The call through [notifyf], with [(nil, _p9sigstr(sig, tmp))], under
    [if(notifyf)]. *)
Definition call_notifyf (signo : Z) : M unit := λ st,
  match notifyf st with
  | Some f => code f (_p9sigstr signo) st
  | None => Ret () st
  end.

(** [signotify]: the actual signal handler.  [case 0] falls through to
    [case 1]; a value with no [case] leaves the switch. *)
Definition signotify (signo : Z) : M unit :=
  switch_p9setjmp signo
    (call_notifyf signo ;; signotify_dflt signo)
    (λ v, if v =? 1 then signotify_dflt signo
          else if v =? 2 then mret ()
          else mret ()).

(** [signonotify]. *)
Definition signonotify (signo : Z) : M unit := mret ().

(** [noted]. *)
Definition noted (v : Z) : M Z :=
  p9longjmp Notejmpbuf (if v =? NCONT then 2 else 1) ;;
  abort ;;
  mret 0.

(** [handler]. *)
Definition handler (s : Z) (st : State) : Sighandler :=
  sa_handler (sigaction_get s st).

(** [notesetenable]. *)
Definition notesetenable (signo enable : Z) (st : State) : State :=
  if signo =? 0 then st
  else
    let mask := sigemptyset in
    let mask := sigaddset mask signo in
    sigprocmask (if nonzero enable then SIG_UNBLOCK else SIG_BLOCK) mask st.

(** [noteenable], [notedisable]. *)
Definition noteenable (msg : string) : State → State :=
  notesetenable (_p9strsig msg) 1.

Definition notedisable (msg : string) : State → State :=
  notesetenable (_p9strsig msg) 0.

(** [notifyseton]. *)
Definition notifyseton (s on : Z) (st : State) : State :=
  match findsig table s with
  | None => st
  | Some sg =>
      let st := if nonzero on then notesetenable s 1 st else st in
      let sa := sa_zero in
      let sa := mkSigaction (if nonzero on then Fsignotify else Fsignonotify)
                            (sa_flags sa) (sa_mask sa) in
      let sa := if nonzero (restart sg)
                then mkSigaction (sa_handler sa) (Z.lor (sa_flags sa) (SA_RESTART p)) (sa_mask sa)
                else sa in
      let sa := mkSigaction (sa_handler sa) (sa_flags sa) sigfillset in
      sigaction_set (sig sg) sa st
  end.

(** [notifyon], [notifyoff]. *)
Definition notifyon (msg : string) : State → State :=
  notifyseton (_p9strsig msg) 1.

Definition notifyoff (msg : string) : State → State :=
  notifyseton (_p9strsig msg) 0.

(** One turn of the loop of [noteinit]. *)
Definition noteinit_row (sg : Sig) (st : State) : State :=
  match handler (sig sg) st with
  | SIG_DFL =>
      let st := notesetenable (sig sg) (enabled sg) st in
      notifyseton (sig sg) (notified sg) st
  | _ => st
  end.

(** The loop of [noteinit] over the rows [rows], in order. *)
Fixpoint noteinit_loop (rows : list Sig) (st : State) : State :=
  match rows with
  | [] => st
  | sg :: rest => noteinit_loop rest (noteinit_row sg st)
  end.

(** [noteinit]. *)
Definition noteinit (st : State) : State := noteinit_loop table st.

(** [notify]: the returned [int] and the state. *)
Definition notify (f : option nat) (st : State) : Z * State :=
  let st := set_notifyf f st in
  let st := if negb (nonzero (init st))
            then noteinit (set_init 1 st)
            else st in
  (0, st).

End Notify.

(** ** Vocabulary of the statements *)

(** The action [notifyseton] installs for a row. *)
Definition installed (p : Platform) (sg : Sig) (on : Z) : Sigaction :=
  {| sa_handler := if nonzero on then Fsignotify else Fsignonotify;
     sa_flags := if nonzero (restart sg) then Z.lor 0 (SA_RESTART p) else 0;
     sa_mask := sigfillset |}.

(** The default path was taken from [st] and gave [o]: the slot of
    [signo] is back at the platform default and the signal was raised
    again, so that if [signo] was blocked it is now pending and the
    process has left through [_exit(1)], and otherwise the host's
    default action was taken, which either ended the process or let it
    go on to [_exit(1)]; in each case the status is not zero. *)
Definition default_taken (p : Platform) (signo : Z) (st : State) (o : Outcome ()) : Prop :=
  ∃ w st', o = Halt w st' ∧ nonzero_status w ∧ handler signo st' = SIG_DFL ∧
    if decide (signo ∈ blocked st)
    then w = Exited 1 ∧ signo ∈ pending st'
    else w = if dfl_fatal p signo then Signalled signo else Exited 1.

(** What the host holds of the mask.  A process may name any number in
    a [sigprocmask] call, but the host blocks only the signals it lets a
    process block: not SIGKILL, not SIGSTOP, and no number that is no
    signal.  [blockable] tells which these are on the host at hand;
    [masked blockable st s] tells whether the host holds [s] blocked
    when the process has asked for [blocked st]. *)
Definition masked (blockable : Z → bool) (st : State) (s : Z) : bool :=
  bool_decide (s ∈ blocked st) && blockable s.

(** Linux: signals 1 to 64, without SIGKILL (9) and SIGSTOP (19) and
    without 32 and 33, which the C library keeps for its threads. *)
Definition linux_blockable (s : Z) : bool :=
  bool_decide (1 ≤ s ≤ 64) && negb (bool_decide (s ∈ [9; 19; 32; 33])).

(** How a process ended, if it did. *)
Definition ended {A : Type} (o : Outcome A) : option Stop :=
  match o with
  | Halt w _ => Some w
  | _ => None
  end.

(** ** Sample collaborators

    Values for what notify.c takes from elsewhere, to run the
    definitions on: Plan 9's [NCONT] = 0 and [NDFLT] = 1, a few lines of
    the name table with Linux numbers, and four user handlers. *)

Definition sample_sigstr (s : Z) : string :=
  if s =? 14 then "alarm"
  else if s =? 2 then "interrupt"
  else if s =? 11 then "sys: segmentation violation"
  else "sys: other".

Definition sample_strsig (msg : string) : Z :=
  if decide (msg = "alarm") then 14
  else if decide (msg = "interrupt") then 2
  else if decide (msg = "sys: segmentation violation") then 11
  else 0.

(** Handler 0 returns; handler 1 ends in [noted(NDFLT)], handler 2 in
    [noted(NCONT)], and handler 3 in [noted(2)]. *)
Definition sample_code (f : nat) (msg : string) : M () :=
  match f with
  | 0%nat => mret ()
  | 1%nat => noted 0 1 ;; mret ()
  | 2%nat => noted 0 0 ;; mret ()
  | _ => noted 0 2 ;; mret ()
  end.

(** The same four handlers, each enabling the note it was called for
    before it leaves: inside the handler the signal of the note is no
    longer blocked. *)
Definition enabling_code (f : nat) (msg : string) : M () :=
  lift (noteenable sample_strsig msg) ;;
  sample_code f msg.

(** Two more lines of the name table: the notes of SIGKILL (9) and
    SIGSTOP (19). *)
Definition kill_strsig (msg : string) : Z :=
  if decide (msg = "sys: kill") then 9
  else if decide (msg = "sys: stop") then 19
  else sample_strsig msg.

(** The state in which the host enters [signotify] on Linux when
    [notify f] was the first thing a fresh process did: every signal is
    blocked, as the [sa_mask] of the slot asks. *)
Definition delivering (f : nat) : State :=
  set_blocked (λ b, b ∪ sigfillset) (snd (notify linux (sigs linux) (Some f) fresh)).

(** A table with two rows for SIGALRM (14 on Linux) that disagree in
    every setting. *)
Definition two_rows : list Sig := [mkSig 14 0 1 1; mkSig 14 1 0 0].

(** * Properties *)

(** ** The fields a call leaves alone *)

Section Frames.

Context (p : Platform) (table : list Sig).

Lemma findsig_sig s sg : findsig table s = Some sg → sig sg = s.
Proof.
  induction table as [|r rest IH]; simpl; [done|].
  destruct (Z.eqb_spec (sig r) s); [intros [= <-]; done | exact IH].
Qed.

Lemma findsig_None s : findsig table s = None ↔ ∀ r, r ∈ table → sig r ≠ s.
Proof.
  induction table as [|r rest IH]; simpl.
  - split; [intros _ r Hr; inversion Hr | done].
  - destruct (Z.eqb_spec (sig r) s) as [E|E].
    + split; [done|]. intros H. destruct (H r); [left | done].
    + rewrite IH. split.
      * intros H r' Hr'. inversion Hr'; subst; auto.
      * intros H r' Hr'. apply H. by right.
Qed.

Lemma findsig_first pre r post :
  (∀ r', r' ∈ pre → sig r' ≠ sig r) →
  table = pre ++ r :: post →
  findsig table (sig r) = Some r.
Proof.
  intros Hpre ->. induction pre as [|a pre IH]; simpl.
  - by rewrite Z.eqb_refl.
  - destruct (Z.eqb_spec (sig a) (sig r)) as [E|E].
    + destruct (Hpre a); [left | done].
    + apply IH. intros r' Hr'. apply Hpre. by right.
Qed.

Lemma sigaddset_one signo : sigaddset sigemptyset signo = {[ signo ]}.
Proof. unfold sigaddset, sigemptyset. apply (left_id_L ∅ (∪)). Qed.

Lemma notesetenable_blocked signo enable st :
  blocked (notesetenable signo enable st) =
    if signo =? 0 then blocked st
    else if nonzero enable then blocked st ∖ {[ signo ]}
    else blocked st ∪ {[ signo ]}.
Proof.
  unfold notesetenable. rewrite sigaddset_one.
  destruct (signo =? 0); [done|]. by destruct (nonzero enable).
Qed.

Lemma notesetenable_handlers signo enable st :
  handlers (notesetenable signo enable st) = handlers st.
Proof.
  unfold notesetenable. destruct (signo =? 0); [done|].
  by destruct (nonzero enable).
Qed.

Lemma notesetenable_statics signo enable st :
  let st' := notesetenable signo enable st in
  notifyf st' = notifyf st ∧ init st' = init st ∧
  onejmp st' = onejmp st ∧ pending st' = pending st.
Proof.
  unfold notesetenable. destruct (signo =? 0); [done|].
  by destruct (nonzero enable).
Qed.

Lemma notesetenable_blocked_other signo enable st n :
  n ≠ signo → n ∈ blocked (notesetenable signo enable st) ↔ n ∈ blocked st.
Proof.
  intros Hn. rewrite notesetenable_blocked.
  destruct (signo =? 0); [done|]. destruct (nonzero enable).
  - rewrite elem_of_difference, elem_of_singleton. tauto.
  - rewrite elem_of_union, elem_of_singleton. tauto.
Qed.

Lemma notifyseton_found s on sg st :
  findsig table s = Some sg →
  notifyseton p table s on st =
    sigaction_set s (installed p sg on)
      (if nonzero on then notesetenable s 1 st else st).
Proof.
  intros H. unfold notifyseton. rewrite H, (findsig_sig _ _ H).
  unfold installed. by destruct (nonzero (restart sg)).
Qed.

Lemma notifyseton_missing s on st :
  findsig table s = None → notifyseton p table s on st = st.
Proof. intros H. unfold notifyseton. by rewrite H. Qed.

Lemma notifyseton_statics s on st :
  let st' := notifyseton p table s on st in
  notifyf st' = notifyf st ∧ init st' = init st ∧
  onejmp st' = onejmp st ∧ pending st' = pending st.
Proof.
  destruct (findsig table s) as [sg|] eqn:H.
  - rewrite (notifyseton_found _ _ _ _ H). simpl.
    destruct (nonzero on); [apply notesetenable_statics | done].
  - by rewrite (notifyseton_missing _ _ _ H).
Qed.

Lemma notifyseton_slot_other s on st n :
  n ≠ s → handlers (notifyseton p table s on st) !! n = handlers st !! n.
Proof.
  intros Hn. destruct (findsig table s) as [sg|] eqn:H.
  - rewrite (notifyseton_found _ _ _ _ H). simpl.
    rewrite lookup_insert_ne by done.
    destruct (nonzero on); [by rewrite notesetenable_handlers | done].
  - by rewrite (notifyseton_missing _ _ _ H).
Qed.

Lemma notifyseton_blocked_other s on st n :
  n ≠ s → n ∈ blocked (notifyseton p table s on st) ↔ n ∈ blocked st.
Proof.
  intros Hn. destruct (findsig table s) as [sg|] eqn:H.
  - rewrite (notifyseton_found _ _ _ _ H). simpl.
    destruct (nonzero on); [by apply notesetenable_blocked_other | done].
  - by rewrite (notifyseton_missing _ _ _ H).
Qed.

(** A row whose slot is taken is passed over. *)
Lemma noteinit_row_occupied sg st :
  handler (sig sg) st ≠ SIG_DFL → noteinit_row p table sg st = st.
Proof. unfold noteinit_row. by destruct (handler (sig sg) st). Qed.

Lemma noteinit_row_default sg st :
  handler (sig sg) st = SIG_DFL →
  noteinit_row p table sg st =
    notifyseton p table (sig sg) (notified sg)
      (notesetenable (sig sg) (enabled sg) st).
Proof. unfold noteinit_row. by intros ->. Qed.

(** A row touches the slot and the mask bit of its own signal only. *)
Lemma noteinit_row_other sg st n :
  n ≠ sig sg →
  handlers (noteinit_row p table sg st) !! n = handlers st !! n ∧
  (n ∈ blocked (noteinit_row p table sg st) ↔ n ∈ blocked st).
Proof.
  intros Hn. unfold noteinit_row.
  destruct (handler (sig sg) st); try done.
  rewrite notifyseton_slot_other, notifyseton_blocked_other by done.
  rewrite notesetenable_handlers. split; [done|].
  by apply notesetenable_blocked_other.
Qed.

Lemma noteinit_row_statics sg st :
  let st' := noteinit_row p table sg st in
  notifyf st' = notifyf st ∧ init st' = init st ∧
  onejmp st' = onejmp st ∧ pending st' = pending st.
Proof.
  unfold noteinit_row. destruct (handler (sig sg) st); try done.
  simpl.
  destruct (notifyseton_statics (sig sg) (notified sg)
              (notesetenable (sig sg) (enabled sg) st)) as (-> & -> & -> & ->).
  apply notesetenable_statics.
Qed.

Lemma noteinit_loop_app rows1 rows2 st :
  noteinit_loop p table (rows1 ++ rows2) st =
    noteinit_loop p table rows2 (noteinit_loop p table rows1 st).
Proof. revert st. induction rows1 as [|r rows1 IH]; simpl; [done | intros; apply IH]. Qed.

Lemma noteinit_loop_statics rows st :
  let st' := noteinit_loop p table rows st in
  notifyf st' = notifyf st ∧ init st' = init st ∧
  onejmp st' = onejmp st ∧ pending st' = pending st.
Proof.
  revert st. induction rows as [|r rows IH]; simpl; [done|]. intros st.
  destruct (IH (noteinit_row p table r st)) as (-> & -> & -> & ->).
  apply noteinit_row_statics.
Qed.

(** Rows for other signals leave a signal's slot and mask bit alone. *)
Lemma noteinit_loop_other rows st n :
  (∀ r, r ∈ rows → sig r ≠ n) →
  handlers (noteinit_loop p table rows st) !! n = handlers st !! n ∧
  (n ∈ blocked (noteinit_loop p table rows st) ↔ n ∈ blocked st).
Proof.
  revert st. induction rows as [|r rows IH]; simpl; [done|]. intros st Hrows.
  destruct (IH (noteinit_row p table r st)) as [-> ->].
  { intros r' Hr'. apply Hrows. by right. }
  apply noteinit_row_other. intros E. destruct (Hrows r); [left | done].
Qed.

(** A slot that is taken stays as it is through the whole loop, and so
    does the mask bit of its signal, whatever the rows say. *)
Lemma noteinit_loop_occupied rows st n :
  handler n st ≠ SIG_DFL →
  handlers (noteinit_loop p table rows st) !! n = handlers st !! n ∧
  (n ∈ blocked (noteinit_loop p table rows st) ↔ n ∈ blocked st).
Proof.
  revert st. induction rows as [|r rows IH]; simpl; [done|]. intros st Hn.
  destruct (decide (n = sig r)) as [->|Hne].
  - rewrite noteinit_row_occupied by done. by apply IH.
  - destruct (noteinit_row_other r st n Hne) as [Hh Hb].
    destruct (IH (noteinit_row p table r st)) as [-> ->]; [|done].
    unfold handler, sigaction_get in *. by rewrite Hh.
Qed.

End Frames.

(** ** The static table *)

Ltac split_rows H :=
  repeat (apply elem_of_cons in H as [H|H]; [subst|]);
  try (apply elem_of_nil in H; destruct H).

Ltac pick_class :=
  first
    [ left; split; [reflexivity | simpl; set_solver]
    | right; left; split; [reflexivity | simpl; congruence]
    | right; right; left; split; reflexivity
    | right; right; right; split; [reflexivity | simpl; first [left; set_solver | right; congruence]] ].

(** C3 (as amended).  Every row of [sigs] falls in one of four classes:
    the rows of SIGCHLD, SIGTSTP, SIGTTIN, SIGTTOU and SIGWINCH have
    restart set, enabled clear and notified set; the row of SIGINFO,
    where the host has that signal, has restart, enabled and notified
    all set; the row of SIGPIPE has restart and enabled clear (and
    notified set); every other row has restart clear, enabled and
    notified set.  Each of the named rows is in the table. *)
Theorem sigs_defaults (p : Platform) :
  (∀ r, r ∈ sigs p →
     (r = mkSig (sig r) 1 0 1 ∧
        sig r ∈ [SIGCHLD p; SIGTSTP p; SIGTTIN p; SIGTTOU p; SIGWINCH p])
     ∨ (r = mkSig (sig r) 1 1 1 ∧ SIGINFO p = Some (sig r))
     ∨ (r = mkSig (sig r) 0 0 1 ∧ sig r = SIGPIPE p)
     ∨ (r = mkSig (sig r) 0 1 1 ∧
          (sig r ∈ [SIGHUP p; SIGINT p; SIGQUIT p; SIGILL p; SIGTRAP p;
                    SIGFPE p; SIGBUS p; SIGSYS p; SIGALRM p; SIGTERM p;
                    SIGXCPU p; SIGXFSZ p; SIGVTALRM p; SIGUSR1 p; SIGUSR2 p]
           ∨ SIGEMT p = Some (sig r))))
  ∧ (∀ s, s ∈ [SIGCHLD p; SIGTSTP p; SIGTTIN p; SIGTTOU p; SIGWINCH p] →
       mkSig s 1 0 1 ∈ sigs p)
  ∧ (∀ s, SIGINFO p = Some s → mkSig s 1 1 1 ∈ sigs p)
  ∧ mkSig (SIGPIPE p) 0 0 1 ∈ sigs p.
Proof.
  unfold sigs. repeat split.
  - intros r Hr.
    destruct (SIGEMT p) as [emt|] eqn:Eemt, (SIGINFO p) as [info|] eqn:Einfo;
      simpl in Hr; split_rows Hr; pick_class.
  - intros s Hs. split_rows Hs;
      destruct (SIGEMT p), (SIGINFO p); simpl; set_solver.
  - intros s ->. destruct (SIGEMT p); simpl; set_solver.
  - destruct (SIGEMT p), (SIGINFO p); simpl; set_solver.
Qed.

(** C3, as the claim has it, fails where the host has SIGINFO: on the
    BSDs the row found for SIGINFO (29) has enabled set, not clear. *)
Lemma sigs_siginfo_enabled :
  SIGINFO bsd = Some 29 ∧
  findsig (sigs bsd) 29 = Some (mkSig 29 1 1 1) ∧
  enabled (mkSig 29 1 1 1) ≠ 0.
Proof. repeat split; vm_compute; congruence. Qed.

(** ** The configuration entry points *)

Section Config.

Context (p : Platform) (_p9strsig : string → Z) (table : list Sig).

Lemma notesetenable_zero enable st : notesetenable 0 enable st = st.
Proof. reflexivity. Qed.

(** C5.  For a note whose number has a row: [noteenable] takes the
    signal out of the mask and [notedisable] puts it in, both leaving
    every handler slot as it was; [notifyon] takes it out of the mask and
    installs [signotify] in its slot; [notifyoff] installs [signonotify]
    and leaves the mask as it was.  No other slot changes. *)
Theorem config_effects (msg : string) (sg : Sig) (st : State) :
  findsig table (_p9strsig msg) = Some sg →
  _p9strsig msg ≠ 0 →
  let s := _p9strsig msg in
  (blocked (noteenable _p9strsig msg st) = blocked st ∖ {[ s ]} ∧
   handlers (noteenable _p9strsig msg st) = handlers st)
  ∧ (blocked (notedisable _p9strsig msg st) = blocked st ∪ {[ s ]} ∧
     handlers (notedisable _p9strsig msg st) = handlers st)
  ∧ (blocked (notifyon p _p9strsig table msg st) = blocked st ∖ {[ s ]} ∧
     handler s (notifyon p _p9strsig table msg st) = Fsignotify ∧
     ∀ n, n ≠ s →
       handlers (notifyon p _p9strsig table msg st) !! n = handlers st !! n)
  ∧ (blocked (notifyoff p _p9strsig table msg st) = blocked st ∧
     handler s (notifyoff p _p9strsig table msg st) = Fsignonotify ∧
     ∀ n, n ≠ s →
       handlers (notifyoff p _p9strsig table msg st) !! n = handlers st !! n).
Proof.
  intros Hrow Hs s. apply Z.eqb_neq in Hs.
  unfold noteenable, notedisable, notifyon, notifyoff.
  fold s in Hrow, Hs |- *. clearbody s.
  rewrite !notesetenable_blocked, !notesetenable_handlers.
  rewrite Hs. simpl.
  rewrite !(notifyseton_found p table s _ sg) by done. simpl.
  rewrite notesetenable_blocked, Hs. simpl.
  unfold handler, sigaction_get. simpl. rewrite !lookup_insert_eq. simpl.
  repeat split; try done.
  - intros n Hn. rewrite lookup_insert_ne by done.
    by rewrite notesetenable_handlers.
  - intros n Hn. by rewrite lookup_insert_ne.
Qed.

(** C7.  A name the name table does not know translates to 0, and then
    all four entry points return the state they were given; so do
    [notifyon] and [notifyoff] for a number without a row.  (No row of
    the table is for signal 0, which is no signal.) *)
Theorem config_unknown_noop (msg : string) (st : State) :
  (∀ r, r ∈ table → sig r ≠ 0) →
  (_p9strsig msg = 0 →
     noteenable _p9strsig msg st = st ∧
     notedisable _p9strsig msg st = st ∧
     notifyon p _p9strsig table msg st = st ∧
     notifyoff p _p9strsig table msg st = st)
  ∧ (findsig table (_p9strsig msg) = None →
     notifyon p _p9strsig table msg st = st ∧
     notifyoff p _p9strsig table msg st = st).
Proof.
  intros Hrows. split.
  - intros E. unfold noteenable, notedisable, notifyon, notifyoff. rewrite E.
    rewrite !notesetenable_zero.
    rewrite !notifyseton_missing by (by apply findsig_None). done.
  - intros E. unfold notifyon, notifyoff.
    by rewrite !notifyseton_missing.
Qed.

(** [masked] follows each [sigprocmask] call the way the host's mask
    does: blocking adds the blockable signals of the set, unblocking
    takes the signals of the set out, setting keeps the blockable
    signals of the set; what was asked for unblockable numbers never
    shows. *)
Lemma masked_sigprocmask (blockable : Z → bool) how set st s :
  masked blockable (sigprocmask how set st) s =
    match how with
    | SIG_BLOCK => (masked blockable st s || bool_decide (s ∈ set)) && blockable s
    | SIG_UNBLOCK => masked blockable st s && negb (bool_decide (s ∈ set))
    | SIG_SETMASK => bool_decide (s ∈ set) && blockable s
    end.
Proof.
  unfold masked. destruct how; simpl.
  - rewrite (bool_decide_ext (s ∈ blocked st ∪ set) (s ∈ blocked st ∨ s ∈ set))
      by apply elem_of_union.
    rewrite bool_decide_or. by destruct (bool_decide (s ∈ blocked st)),
      (bool_decide (s ∈ set)), (blockable s).
  - rewrite (bool_decide_ext (s ∈ blocked st ∖ set) (s ∈ blocked st ∧ s ∉ set))
      by apply elem_of_difference.
    rewrite bool_decide_and, bool_decide_not.
    by destruct (bool_decide (s ∈ blocked st)), (bool_decide (s ∈ set)), (blockable s).
  - done.
Qed.

(** C9 (as amended).  [noteenable] and [notedisable] take no table:
    whatever nonzero number the name table gives, with or without a row
    in any table, they pass it to [sigprocmask] and change no handler
    slot.  If the number is a signal the host lets a process block, the
    host holds it unblocked after [noteenable] and blocked after
    [notedisable]; if it is not (SIGKILL, SIGSTOP), the host holds it
    unblocked after either call.  The host's hold on every other number
    is as before. *)
Theorem enable_disable_any_signal
    (blockable : Z → bool) (msg : string) (st : State) :
  _p9strsig msg ≠ 0 →
  let s := _p9strsig msg in
  (blockable s = true →
     masked blockable (noteenable _p9strsig msg st) s = false ∧
     masked blockable (notedisable _p9strsig msg st) s = true)
  ∧ (blockable s = false →
     masked blockable (noteenable _p9strsig msg st) s = false ∧
     masked blockable (notedisable _p9strsig msg st) s = false)
  ∧ (∀ n, n ≠ s →
     masked blockable (noteenable _p9strsig msg st) n = masked blockable st n ∧
     masked blockable (notedisable _p9strsig msg st) n = masked blockable st n)
  ∧ handlers (noteenable _p9strsig msg st) = handlers st
  ∧ handlers (notedisable _p9strsig msg st) = handlers st.
Proof.
  intros Hs s. unfold noteenable, notedisable, masked. fold s in Hs |- *.
  clearbody s. apply Z.eqb_neq in Hs.
  rewrite !notesetenable_handlers.
  assert (Hon : bool_decide (s ∈ blocked (notesetenable s 1 st)) = false).
  { apply bool_decide_eq_false. rewrite notesetenable_blocked, Hs. simpl.
    rewrite elem_of_difference, elem_of_singleton. tauto. }
  assert (Hoff : bool_decide (s ∈ blocked (notesetenable s 0 st)) = true).
  { apply bool_decide_eq_true. rewrite notesetenable_blocked, Hs. simpl.
    rewrite elem_of_union, elem_of_singleton. tauto. }
  rewrite Hon, Hoff. simpl.
  split; [done|]. split; [by intros ->|]. split; [|done].
  intros n Hn.
  split; f_equal; apply bool_decide_ext; by apply notesetenable_blocked_other.
Qed.

End Config.

(** ** One-shot initialization *)

Section Init.

Context (p : Platform).

Lemma installed_not_default sg on n st :
  handlers st !! n = Some (installed p sg on) → handler n st ≠ SIG_DFL.
Proof.
  intros H. unfold handler, sigaction_get. rewrite H. simpl.
  by destruct (nonzero on).
Qed.

(** A row that is the one [findsig] finds for its signal, met with the
    slot at the platform default, installs its trampoline. *)
Lemma noteinit_row_installs table sg st :
  findsig table (sig sg) = Some sg →
  handler (sig sg) st = SIG_DFL →
  handlers (noteinit_row p table sg st) !! sig sg
    = Some (installed p sg (notified sg)).
Proof.
  intros Hfind Hdfl. rewrite noteinit_row_default by done.
  rewrite (notifyseton_found p table _ _ sg) by done. simpl.
  apply lookup_insert_eq.
Qed.

(** With notified set, the row leaves its signal unblocked, whatever its
    enabled field says: [notifyseton] unblocks after [notesetenable] has
    set the mask bit. *)
Lemma noteinit_row_notified_unblocked table sg st :
  findsig table (sig sg) = Some sg →
  sig sg ≠ 0 →
  handler (sig sg) st = SIG_DFL →
  nonzero (notified sg) = true →
  sig sg ∉ blocked (noteinit_row p table sg st).
Proof.
  intros Hfind Hs Hdfl Hon. apply Z.eqb_neq in Hs.
  rewrite noteinit_row_default by done.
  rewrite (notifyseton_found p table _ _ sg) by done. rewrite Hon. simpl.
  rewrite notesetenable_blocked, Hs. simpl.
  rewrite elem_of_difference, elem_of_singleton. tauto.
Qed.

(** C4 (as amended).  [noteinit] walks the rows in declared order, and
    a row is applied only while the slot of its signal is still at the
    platform default.  So when a signal has several rows, the first one
    installs its trampoline and its restart flag, and each later row for
    that signal is passed over: it changes nothing, and the slot keeps
    what the first row put there. *)
Theorem noteinit_first_row_stands (pre post : list Sig) (r : Sig) (st : State) :
  (∀ r', r' ∈ pre → sig r' ≠ sig r) →
  handler (sig r) st = SIG_DFL →
  let table := pre ++ r :: post in
  noteinit p table st =
    noteinit_loop p table post
      (noteinit_row p table r (noteinit_loop p table pre st))
  ∧ handlers (noteinit p table st) !! sig r = Some (installed p r (notified r))
  ∧ (∀ mid r' post', post = mid ++ r' :: post' → sig r' = sig r →
       let before := noteinit_loop p table (pre ++ r :: mid) st in
       handlers before !! sig r = Some (installed p r (notified r)) ∧
       noteinit_row p table r' before = before).
Proof.
  intros Hpre Hdfl table.
  assert (Hfind : findsig table (sig r) = Some r)
    by (by apply (findsig_first table pre r post)).
  set (st1 := noteinit_loop p table pre st).
  assert (Hdfl1 : handler (sig r) st1 = SIG_DFL).
  { unfold handler, sigaction_get, st1 in *.
    by destruct (noteinit_loop_other p table pre st (sig r) Hpre) as [-> _]. }
  assert (Hrow : handlers (noteinit_row p table r st1) !! sig r
                 = Some (installed p r (notified r)))
    by (by apply noteinit_row_installs).
  assert (Hkeep : ∀ rows,
            handlers (noteinit_loop p table rows (noteinit_row p table r st1)) !! sig r
            = Some (installed p r (notified r))).
  { intros rows.
    destruct (noteinit_loop_occupied p table rows
                (noteinit_row p table r st1) (sig r)) as [E _].
    - by eapply installed_not_default.
    - by rewrite E. }
  assert (Hsplit : ∀ rows, noteinit_loop p table (pre ++ r :: rows) st
                   = noteinit_loop p table rows (noteinit_row p table r st1)).
  { intros rows. by rewrite noteinit_loop_app. }
  split; [|split].
  - unfold noteinit. apply Hsplit.
  - unfold noteinit. fold table. unfold table at 2. by rewrite Hsplit.
  - intros mid r' post' _ Hsame before. unfold before. rewrite Hsplit.
    split; [apply Hkeep|].
    apply noteinit_row_occupied. rewrite Hsame.
    eapply installed_not_default, Hkeep.
Qed.

End Init.

(** Facts about concrete states, by evaluation. *)
Ltac conjuncts := repeat match goal with |- _ ∧ _ => split end.

Ltac by_eval :=
  match goal with
  | |- _ ∉ _ => refine (bool_decide_eq_false_1 _ _); vm_compute; reflexivity
  | |- _ ∈ _ => refine (bool_decide_eq_true_1 _ _); vm_compute; reflexivity
  | |- _ ≠ _ => refine (bool_decide_eq_false_1 _ _); vm_compute; reflexivity
  | |- _ => vm_compute; reflexivity
  end.

(** C4, as the claim has it, fails: with two rows for one signal the
    state after [noteinit] is the one the first row alone gives
    ([signotify], no restart flag, signal not blocked); the settings of
    the later row (clear notified, restart set, enabled clear) are not
    in force. *)
Lemma noteinit_later_row_ignored :
  noteinit linux two_rows fresh = noteinit linux [mkSig 14 0 1 1] fresh ∧
  handlers (noteinit linux two_rows fresh) !! 14
    = Some (mkSigaction Fsignotify 0 sigfillset) ∧
  handlers (noteinit linux [mkSig 14 1 0 0] fresh) !! 14
    = Some (mkSigaction Fsignonotify (SA_RESTART linux) sigfillset) ∧
  (14 ∉ blocked (noteinit linux two_rows fresh)) ∧
  (14 ∈ blocked (noteinit linux [mkSig 14 1 0 0] fresh)).
Proof. conjuncts; by_eval. Qed.

(** C6, on Linux, from a fresh process.  The row of SIGCHLD (17) has
    enabled clear and its slot is at the platform default, so [noteinit]
    applies the row; but afterwards SIGCHLD is not blocked: the
    [notifyseton] call of the same turn unblocks what [notesetenable]
    had just blocked.  The same holds for SIGPIPE (13). *)
Theorem noteinit_leaves_sigchld_unblocked :
  findsig (sigs linux) 17 = Some (mkSig 17 1 0 1) ∧
  handler 17 fresh = SIG_DFL ∧
  (17 ∈ blocked (notesetenable 17 0 fresh)) ∧
  (17 ∉ blocked (snd (notify linux (sigs linux) (Some 0%nat) fresh))) ∧
  handler 17 (snd (notify linux (sigs linux) (Some 0%nat) fresh)) = Fsignotify ∧
  (13 ∉ blocked (snd (notify linux (sigs linux) (Some 0%nat) fresh))).
Proof. conjuncts; by_eval. Qed.

(** ** The dispatch trampoline *)

Lemma signotify_dflt_taken (p : Platform) signo st :
  default_taken p signo st (signotify_dflt p signo st).
Proof.
  unfold default_taken, signotify_dflt, signal, raise, _exit, lift, handler.
  unfold mbind, M_bind, sigaction_get. simpl.
  destruct (decide (signo ∈ blocked st)) as [Hb|Hb].
  - eexists _, _. split; [reflexivity|]. simpl.
    rewrite lookup_insert_eq. repeat split; [lia | set_solver].
  - rewrite lookup_insert_eq. simpl.
    destruct (dfl_fatal p signo); eexists _, _; (split; [reflexivity|]); simpl;
      rewrite lookup_insert_eq; repeat split; lia.
Qed.

Section Dispatch.

Context (p : Platform) (NCONT NDFLT : Z) (_p9sigstr : Z → string).

(** [noted] is a jump to the note buffer: with 2 for [NCONT], with 1
    for anything else. *)
Lemma noted_jumps v st :
  noted NCONT v st = Longjmp Notejmpbuf (if v =? NCONT then 2 else 1) st.
Proof.
  unfold noted, p9longjmp, mbind, M_bind.
  by destruct (v =? NCONT).
Qed.

(** What [signotify] does with each way the handler can leave. *)
Lemma signotify_handler_returns code signo st f st' :
  notifyf st = Some f →
  code f (_p9sigstr signo) (p9setjmp signo st) = Ret () st' →
  signotify p _p9sigstr code signo st = signotify_dflt p signo st'.
Proof.
  intros Hf Hrun.
  unfold signotify, switch_p9setjmp, call_notifyf, mbind at 1, M_bind at 1.
  simpl. rewrite Hf, Hrun.
  destruct (signotify_dflt_taken p signo st') as (w & st'' & -> & _). done.
Qed.

Lemma signotify_handler_jumps code signo st f v st' :
  notifyf st = Some f →
  code f (_p9sigstr signo) (p9setjmp signo st) = Longjmp Notejmpbuf v st' →
  signotify p _p9sigstr code signo st =
    if v =? 1 then signotify_dflt p signo (sigrestore st')
    else Ret () (sigrestore st').
Proof.
  intros Hf Hrun.
  unfold signotify, switch_p9setjmp, call_notifyf, mbind at 1, M_bind at 1.
  simpl. rewrite Hf, Hrun.
  destruct (v =? 1); [done|]. by destruct (v =? 2).
Qed.

Lemma signotify_handler_jumps_away code signo st f id v st' :
  notifyf st = Some f →
  code f (_p9sigstr signo) (p9setjmp signo st) = Longjmp (Otherbuf id) v st' →
  signotify p _p9sigstr code signo st = Longjmp (Otherbuf id) v st'.
Proof.
  intros Hf Hrun.
  unfold signotify, switch_p9setjmp, call_notifyf, mbind at 1, M_bind at 1.
  simpl. by rewrite Hf, Hrun.
Qed.

Lemma signotify_handler_halts code signo st f w st' :
  notifyf st = Some f →
  code f (_p9sigstr signo) (p9setjmp signo st) = Halt w st' →
  signotify p _p9sigstr code signo st = Halt w st'.
Proof.
  intros Hf Hrun.
  unfold signotify, switch_p9setjmp, call_notifyf, mbind at 1, M_bind at 1.
  simpl. by rewrite Hf, Hrun.
Qed.

Lemma signotify_nil code signo st :
  notifyf st = None →
  signotify p _p9sigstr code signo st = signotify_dflt p signo (p9setjmp signo st).
Proof.
  intros Hf.
  unfold signotify, switch_p9setjmp, call_notifyf, mbind at 1, M_bind at 1.
  simpl. rewrite Hf.
  destruct (signotify_dflt_taken p signo (p9setjmp signo st)) as (w & st'' & -> & _).
  done.
Qed.

Lemma noted_then_ret v st :
  (noted NCONT v ;; mret ()) st
    = Longjmp Notejmpbuf (if v =? NCONT then 2 else 1) st.
Proof. unfold mbind at 1, M_bind at 1. by rewrite noted_jumps. Qed.

(** The jump brings back the mask the buffer holds and nothing else;
    when the handler left the buffer as [p9setjmp] filled it, that is
    the mask [signotify] was entered with. *)
Lemma sigrestore_entry signo st st' :
  onejmp st' = onejmp (p9setjmp signo st) →
  sigrestore st' = set_blocked (λ _, blocked st) st'.
Proof. unfold sigrestore. by intros ->. Qed.

End Dispatch.

Section DispatchClaims.

Context (p : Platform) (NCONT NDFLT : Z) (_p9sigstr : Z → string).
Context (code : nat → string → M ()).

(** C1.  With a user handler registered, [signotify] saves its frame
    and the signal mask in the jump buffer and calls the handler with
    the name of the signal; what it does next is decided by how that
    call ends.  If the handler returns, the default path is taken from
    the state the handler left; if it ends in [noted(NDFLT)], the
    default path is taken from that state with the saved mask back in
    place.  On the default path the slot of the signal is reset to the
    platform default, the signal is raised again and the process ends
    with a status that is not zero.  If the handler ends in
    [noted(NCONT)], [signotify] returns, with the state the handler
    left and the saved mask back in place. *)
Theorem signotify_dispatch (signo : Z) (st : State) (f : nat) :
  NCONT ≠ NDFLT →
  notifyf st = Some f →
  let run := code f (_p9sigstr signo) (p9setjmp signo st) in
  getonejmp (p9setjmp signo st) = Some (mkFrame signo (blocked st))
  ∧ signotify p _p9sigstr code signo st =
      match run with
      | Ret _ st' => signotify_dflt p signo st'
      | Longjmp Notejmpbuf v st' =>
          if v =? 1 then signotify_dflt p signo (sigrestore st')
          else Ret () (sigrestore st')
      | Longjmp (Otherbuf id) v st' => Longjmp (Otherbuf id) v st'
      | Halt w st' => Halt w st'
      end
  ∧ (∀ st', run = Ret () st' →
       signotify p _p9sigstr code signo st = signotify_dflt p signo st' ∧
       default_taken p signo st' (signotify p _p9sigstr code signo st))
  ∧ (∀ st', run = (noted NCONT NDFLT ;; mret ()) st' →
       signotify p _p9sigstr code signo st
         = signotify_dflt p signo (sigrestore st') ∧
       default_taken p signo (sigrestore st')
         (signotify p _p9sigstr code signo st))
  ∧ (∀ st', run = (noted NCONT NCONT ;; mret ()) st' →
       signotify p _p9sigstr code signo st = Ret () (sigrestore st'))
  ∧ (∀ st', onejmp st' = onejmp (p9setjmp signo st) →
       sigrestore st' = set_blocked (λ _, blocked st) st').
Proof.
  intros Hne Hf run. split; [done|]. split; [|split; [|split; [|split]]].
  - destruct run as [[] st'|[|id] v st'|w st'] eqn:Hrun.
    + by apply (signotify_handler_returns p _p9sigstr code signo st f).
    + by apply (signotify_handler_jumps p _p9sigstr code signo st f).
    + by apply (signotify_handler_jumps_away p _p9sigstr code signo st f).
    + by apply (signotify_handler_halts p _p9sigstr code signo st f).
  - intros st' Hrun.
    rewrite (signotify_handler_returns p _p9sigstr code signo st f st') by done.
    split; [done|]. apply signotify_dflt_taken.
  - intros st' Hrun. rewrite noted_then_ret in Hrun.
    apply Z.eqb_neq in Hne. rewrite Z.eqb_sym, Hne in Hrun.
    rewrite (signotify_handler_jumps p _p9sigstr code signo st f 1 st') by done.
    split; [done|]. apply signotify_dflt_taken.
  - intros st' Hrun. rewrite noted_then_ret, Z.eqb_refl in Hrun.
    by rewrite (signotify_handler_jumps p _p9sigstr code signo st f 2 st').
  - intros st'. apply sigrestore_entry.
Qed.

(** C2 (as amended).  [noted] does not abort on a value outside
    [NCONT], [NDFLT]: every value other than [NCONT] is carried as jump
    value 1, exactly as [NDFLT] is, and a handler that ends in such a
    call sends [signotify] down the default path, from the state at the
    call with the saved mask back in place.  (The [abort] in [noted]
    stands behind a jump that does not return.) *)
Theorem noted_other_value_is_default (v signo : Z) (st st' : State) (f : nat) :
  NCONT ≠ NDFLT →
  v ≠ NCONT →
  notifyf st = Some f →
  code f (_p9sigstr signo) (p9setjmp signo st) = (noted NCONT v ;; mret ()) st' →
  noted NCONT v st' = Longjmp Notejmpbuf 1 st'
  ∧ noted NCONT v st' = noted NCONT NDFLT st'
  ∧ signotify p _p9sigstr code signo st = signotify_dflt p signo (sigrestore st')
  ∧ default_taken p signo (sigrestore st') (signotify p _p9sigstr code signo st).
Proof.
  intros Hne Hv Hf Hrun.
  apply Z.eqb_neq in Hv. apply not_eq_sym, Z.eqb_neq in Hne.
  rewrite noted_then_ret, Hv in Hrun.
  rewrite !noted_jumps, Hv, Hne.
  rewrite (signotify_handler_jumps p _p9sigstr code signo st f 1 st') by done.
  repeat split; try done. apply signotify_dflt_taken.
Qed.

(** C8.  With no user handler registered, [signotify] goes straight
    down the default path, from the state it was entered in (but for the
    saved frame): slot reset to the platform default, signal raised
    again, process ended with a status that is not zero.  No handler
    code runs: the outcome is the same whatever code the process has. *)
Theorem signotify_without_handler (signo : Z) (st : State) :
  notifyf st = None →
  signotify p _p9sigstr code signo st = signotify_dflt p signo (p9setjmp signo st)
  ∧ default_taken p signo st (signotify p _p9sigstr code signo st)
  ∧ (∀ code', signotify p _p9sigstr code' signo st
              = signotify p _p9sigstr code signo st).
Proof.
  intros Hf. split; [by apply signotify_nil|]. split.
  - rewrite signotify_nil by done.
    apply (signotify_dflt_taken p signo (p9setjmp signo st)).
  - intros code'. by rewrite !signotify_nil.
Qed.

Context (table : list Sig).

(** C10.  [notify f] returns 0 and leaves [f] in [notifyf], whatever was
    there.  The first call, which finds [init] clear, sets it and runs
    [noteinit]; a call that finds it set changes [notifyf] and nothing
    else, and after any call it is set, so no second call runs
    [noteinit].  After [notify(nil)], [signotify] takes the default
    path. *)
Theorem notify_registers (f : option nat) (st : State) :
  let st' := snd (notify p table f st) in
  fst (notify p table f st) = 0
  ∧ notifyf st' = f
  ∧ (init st = 0 → st' = noteinit p table (set_init 1 (set_notifyf f st)))
  ∧ (init st ≠ 0 → st' = set_notifyf f st)
  ∧ init st' ≠ 0
  ∧ (∀ g, snd (notify p table g st') = set_notifyf g st')
  ∧ (f = None → ∀ signo,
       signotify p _p9sigstr code signo st'
         = signotify_dflt p signo (p9setjmp signo st') ∧
       default_taken p signo st' (signotify p _p9sigstr code signo st')).
Proof.
  intros st'.
  assert (Hcases : (init st = 0 ∧ st' = noteinit p table (set_init 1 (set_notifyf f st)))
                   ∨ (init st ≠ 0 ∧ st' = set_notifyf f st)).
  { unfold st', notify, nonzero. simpl.
    destruct (Z.eqb_spec (init st) 0); [left | right]; done. }
  assert (Hf : notifyf st' = f).
  { destruct Hcases as [[_ ->]|[_ ->]]; [|done].
    unfold noteinit.
    by destruct (noteinit_loop_statics p table table
                   (set_init 1 (set_notifyf f st))) as [-> _]. }
  assert (Hinit : init st' ≠ 0).
  { destruct Hcases as [[_ ->]|[H ->]]; [|done].
    unfold noteinit.
    by destruct (noteinit_loop_statics p table table
                   (set_init 1 (set_notifyf f st))) as (_ & -> & _). }
  split; [done|]. split; [done|].
  split; [by destruct Hcases as [[_ ->]|[H _]]|].
  split; [by destruct Hcases as [[H _]|[_ ->]]|].
  split; [done|]. split.
  - intros g. unfold notify, nonzero. simpl.
    apply Z.eqb_neq in Hinit. by rewrite Hinit.
  - intros -> signo. split.
    + by apply signotify_nil.
    + rewrite signotify_nil by done.
      apply (signotify_dflt_taken p signo (p9setjmp signo st')).
Qed.

End DispatchClaims.

(** ** The claims at concrete inputs *)

(** C1 at work on Linux, with SIGALRM delivered to handlers that
    enable "alarm" and then leave.  The one that ends in [noted(NCONT)]
    makes [signotify] return with SIGALRM blocked again, as on entry;
    the one that ends in [noted(NDFLT)] takes the default path with
    SIGALRM blocked again, so the process leaves through [_exit(1)]
    with the signal pending; the one that returns takes it with SIGALRM
    unblocked, and the signal ends the process. *)
Lemma signotify_dispatch_witness :
  let after (f : nat) := noteenable sample_strsig "alarm" (p9setjmp 14 (delivering f)) in
  (0 ≠ 1) ∧ notifyf (delivering 2) = Some 2%nat ∧
  notifyf (delivering 1) = Some 1%nat ∧ notifyf (delivering 0) = Some 0%nat ∧
  (14 ∉ blocked (after 2%nat)) ∧
  signotify linux sample_sigstr enabling_code 14 (delivering 2)
    = Ret () (sigrestore (after 2%nat)) ∧
  (14 ∈ blocked (sigrestore (after 2%nat))) ∧
  default_taken linux 14 (sigrestore (after 1%nat))
    (signotify linux sample_sigstr enabling_code 14 (delivering 1)) ∧
  ended (signotify linux sample_sigstr enabling_code 14 (delivering 1))
    = Some (Exited 1) ∧
  default_taken linux 14 (after 0%nat)
    (signotify linux sample_sigstr enabling_code 14 (delivering 0)) ∧
  ended (signotify linux sample_sigstr enabling_code 14 (delivering 0))
    = Some (Signalled 14).
Proof.
  intros after.
  assert (H1 : (0 : Z) ≠ 1) by lia.
  assert (H2 : notifyf (delivering 2) = Some 2%nat) by reflexivity.
  assert (H3 : notifyf (delivering 1) = Some 1%nat) by reflexivity.
  assert (H0 : notifyf (delivering 0) = Some 0%nat) by reflexivity.
  pose proof (signotify_dispatch linux 0 1 sample_sigstr enabling_code 14
                (delivering 2) 2%nat H1 H2) as (_ & _ & _ & _ & Hcont & _).
  pose proof (signotify_dispatch linux 0 1 sample_sigstr enabling_code 14
                (delivering 1) 1%nat H1 H3) as (_ & _ & _ & Hdflt & _).
  pose proof (signotify_dispatch linux 0 1 sample_sigstr enabling_code 14
                (delivering 0) 0%nat H1 H0) as (_ & _ & Hret & _).
  refine (conj H1 (conj H2 (conj H3 (conj H0 (conj _ (conj (Hcont (after 2%nat) eq_refl)
            (conj _ (conj (proj2 (Hdflt (after 1%nat) eq_refl))
               (conj _ (conj (proj2 (Hret (after 0%nat) eq_refl)) _))))))))));
    by_eval.
Defined.

(** C2, as the claim has it, fails: 2 is neither [NCONT] (0) nor
    [NDFLT] (1), yet [noted(2)] jumps with value 1 and does not abort,
    and [signotify] then takes the default path and the process leaves
    through [_exit(1)], as for [noted(NDFLT)]. *)
Lemma noted_two_does_not_abort :
  (2 ≠ 0) ∧ (2 ≠ 1) ∧
  noted 0 2 (delivering 3) = Longjmp Notejmpbuf 1 (delivering 3) ∧
  noted 0 2 (delivering 3) ≠ Halt Aborted (delivering 3) ∧
  signotify linux sample_sigstr sample_code 14 (delivering 3)
    = signotify_dflt linux 14 (sigrestore (p9setjmp 14 (delivering 3))) ∧
  ended (signotify linux sample_sigstr sample_code 14 (delivering 3))
    = Some (Exited 1) ∧
  ended (signotify linux sample_sigstr sample_code 14 (delivering 1))
    = Some (Exited 1).
Proof.
  split; [lia|]. split; [lia|]. split; [reflexivity|].
  split; [discriminate|]. conjuncts; by_eval.
Qed.

(** C2 as amended, for the value 2, with a handler that enables the
    note before it calls [noted(2)]. *)
Lemma noted_other_value_witness :
  let after := noteenable sample_strsig "alarm" (p9setjmp 14 (delivering 3)) in
  (0 ≠ 1) ∧ (2 ≠ 0) ∧ notifyf (delivering 3) = Some 3%nat ∧
  noted 0 2 after = noted 0 1 after ∧
  default_taken linux 14 (sigrestore after)
    (signotify linux sample_sigstr enabling_code 14 (delivering 3)) ∧
  ended (signotify linux sample_sigstr enabling_code 14 (delivering 3))
    = Some (Exited 1).
Proof.
  intros after.
  assert (H1 : (0 : Z) ≠ 1) by lia.
  assert (H2 : (2 : Z) ≠ 0) by lia.
  assert (H3 : notifyf (delivering 3) = Some 3%nat) by reflexivity.
  refine (conj H1 (conj H2 (conj H3 _))).
  pose proof (noted_other_value_is_default linux 0 1 sample_sigstr enabling_code
                2 14 (delivering 3) after 3%nat H1 H2 H3 eq_refl) as (_ & E & _ & D).
  refine (conj E (conj D _)). by_eval.
Defined.

(** C3 as amended, read off the tables of Linux and of the BSDs. *)
Lemma sigs_defaults_witness :
  mkSig 17 1 0 1 ∈ sigs linux ∧ mkSig 13 0 0 1 ∈ sigs linux ∧
  mkSig 29 1 1 1 ∈ sigs bsd ∧ mkSig 20 1 0 1 ∈ sigs bsd.
Proof.
  refine (conj _ (conj _ (conj _ _))).
  - apply (proj1 (proj2 (sigs_defaults linux)) 17). by_eval.
  - exact (proj2 (proj2 (proj2 (sigs_defaults linux)))).
  - exact (proj1 (proj2 (proj2 (sigs_defaults bsd))) 29 eq_refl).
  - apply (proj1 (proj2 (sigs_defaults bsd)) 20). by_eval.
Defined.

(** C4 as amended, on [two_rows]. *)
Lemma noteinit_first_row_witness :
  handler 14 fresh = SIG_DFL ∧
  handlers (noteinit linux two_rows fresh) !! 14
    = Some (installed linux (mkSig 14 0 1 1) 1) ∧
  noteinit_row linux two_rows (mkSig 14 1 0 0)
      (noteinit_loop linux two_rows [mkSig 14 0 1 1] fresh)
    = noteinit_loop linux two_rows [mkSig 14 0 1 1] fresh.
Proof.
  assert (H0 : ∀ r', r' ∈ ([] : list Sig) → sig r' ≠ sig (mkSig 14 0 1 1))
    by (intros r' Hr'; inversion Hr').
  assert (H1 : handler (sig (mkSig 14 0 1 1)) fresh = SIG_DFL) by reflexivity.
  pose proof (noteinit_first_row_stands linux [] [mkSig 14 1 0 0]
                (mkSig 14 0 1 1) fresh H0 H1) as (_ & Hslot & Hlater).
  refine (conj H1 (conj Hslot _)).
  exact (proj2 (Hlater [] (mkSig 14 1 0 0) [] eq_refl eq_refl)).
Defined.

(** C5 on Linux, for the note of SIGALRM, starting with the signal
    blocked and its slot untouched. *)
Lemma config_effects_witness :
  let st := set_blocked (λ _, {[ 14 ]}) fresh in
  findsig (sigs linux) (sample_strsig "alarm") = Some (mkSig 14 0 1 1) ∧
  sample_strsig "alarm" ≠ 0 ∧
  blocked (notifyon linux sample_strsig (sigs linux) "alarm" st) = {[ 14 ]} ∖ {[ 14 ]} ∧
  handler 14 (notifyon linux sample_strsig (sigs linux) "alarm" st) = Fsignotify ∧
  blocked (notifyoff linux sample_strsig (sigs linux) "alarm" st) = {[ 14 ]} ∧
  handler 14 (notifyoff linux sample_strsig (sigs linux) "alarm" st) = Fsignonotify ∧
  handlers (noteenable sample_strsig "alarm" st) = ∅ ∧
  handlers (notedisable sample_strsig "alarm" st) = ∅.
Proof.
  intros st.
  assert (H1 : findsig (sigs linux) (sample_strsig "alarm") = Some (mkSig 14 0 1 1))
    by reflexivity.
  assert (H2 : sample_strsig "alarm" ≠ 0) by (vm_compute; discriminate).
  pose proof (config_effects linux sample_strsig (sigs linux) "alarm"
                (mkSig 14 0 1 1) st H1 H2)
    as ((_ & He) & (_ & Hd) & (Hon & Hon' & _) & (Hoff & Hoff' & _)).
  exact (conj H1 (conj H2 (conj Hon (conj Hon' (conj Hoff (conj Hoff' (conj He Hd))))))).
Defined.

(** C7 on Linux, for a name that is no note. *)
Lemma config_unknown_witness :
  (∀ r, r ∈ sigs linux → sig r ≠ 0) ∧
  sample_strsig "no such note" = 0 ∧
  noteenable sample_strsig "no such note" fresh = fresh ∧
  notedisable sample_strsig "no such note" fresh = fresh ∧
  notifyon linux sample_strsig (sigs linux) "no such note" fresh = fresh ∧
  notifyoff linux sample_strsig (sigs linux) "no such note" fresh = fresh.
Proof.
  assert (H1 : ∀ r, r ∈ sigs linux → sig r ≠ 0).
  { intros r Hr. unfold sigs in Hr. simpl in Hr. split_rows Hr; simpl; lia. }
  assert (H2 : sample_strsig "no such note" = 0) by reflexivity.
  exact (conj H1 (conj H2
           (proj1 (config_unknown_noop linux sample_strsig (sigs linux)
                     "no such note" fresh H1) H2))).
Defined.

(** C8 on Linux: SIGALRM arrives after [notify(nil)]. *)
Lemma signotify_without_handler_witness :
  notifyf (snd (notify linux (sigs linux) None fresh)) = None ∧
  default_taken linux 14 (snd (notify linux (sigs linux) None fresh))
    (signotify linux sample_sigstr sample_code 14
       (snd (notify linux (sigs linux) None fresh))).
Proof.
  assert (H1 : notifyf (snd (notify linux (sigs linux) None fresh)) = None)
    by reflexivity.
  exact (conj H1
           (proj1 (proj2 (signotify_without_handler linux sample_sigstr sample_code
                            14 (snd (notify linux (sigs linux) None fresh)) H1)))).
Defined.

(** C9, as the claim has it, fails at the note of SIGKILL: the name
    table gives 9, which is not 0, and after [notedisable] the host
    still does not hold SIGKILL blocked; the same for SIGSTOP (19). *)
Lemma notedisable_sigkill_not_blocked :
  kill_strsig "sys: kill" = 9 ∧ (9 ≠ 0) ∧
  masked linux_blockable (notedisable kill_strsig "sys: kill" fresh) 9 = false ∧
  kill_strsig "sys: stop" = 19 ∧
  masked linux_blockable (notedisable kill_strsig "sys: stop" fresh) 19 = false.
Proof. split; [reflexivity|]. split; [lia|]. conjuncts; by_eval. Qed.

(** C9 as amended, on Linux, for SIGSEGV (11), which has no row. *)
Lemma enable_disable_witness :
  sample_strsig "sys: segmentation violation" ≠ 0 ∧
  linux_blockable (sample_strsig "sys: segmentation violation") = true ∧
  findsig (sigs linux) (sample_strsig "sys: segmentation violation") = None ∧
  masked linux_blockable
    (notedisable sample_strsig "sys: segmentation violation" fresh) 11 = true ∧
  masked linux_blockable
    (noteenable sample_strsig "sys: segmentation violation"
       (notedisable sample_strsig "sys: segmentation violation" fresh)) 11 = false.
Proof.
  assert (H1 : sample_strsig "sys: segmentation violation" ≠ 0)
    by (vm_compute; discriminate).
  assert (H2 : linux_blockable (sample_strsig "sys: segmentation violation") = true)
    by reflexivity.
  refine (conj H1 (conj H2 (conj eq_refl (conj _ _)))).
  - exact (proj2 (proj1 (enable_disable_any_signal sample_strsig linux_blockable
             "sys: segmentation violation" fresh H1) H2)).
  - exact (proj1 (proj1 (enable_disable_any_signal sample_strsig linux_blockable
             "sys: segmentation violation"
             (notedisable sample_strsig "sys: segmentation violation" fresh) H1) H2)).
Defined.

(** C10 on Linux: the first [notify] of a fresh process initializes the
    slots, a second one, with nil, changes [notifyf] only, and SIGALRM
    then takes the default path. *)
Lemma notify_registers_witness :
  let st1 := snd (notify linux (sigs linux) (Some 0%nat) fresh) in
  let st2 := snd (notify linux (sigs linux) None st1) in
  st1 = noteinit linux (sigs linux) (set_init 1 (set_notifyf (Some 0%nat) fresh)) ∧
  handler 14 st1 = Fsignotify ∧
  st2 = set_notifyf None st1 ∧
  default_taken linux 14 st2 (signotify linux sample_sigstr sample_code 14 st2).
Proof.
  intros st1 st2.
  pose proof (notify_registers linux sample_sigstr sample_code (sigs linux)
                (Some 0%nat) fresh) as (_ & _ & Hfirst & _ & _ & Hagain & _).
  pose proof (notify_registers linux sample_sigstr sample_code (sigs linux)
                None st1) as (_ & _ & _ & _ & _ & _ & Hnil).
  refine (conj (Hfirst eq_refl) (conj eq_refl (conj (Hagain None) _))).
  exact (proj2 (Hnil eq_refl 14)).
Defined.

(** * Further properties of notify.c *)

(** ** Looking up a row *)

Section Lookup.

Context (table : list Sig).

Lemma findsig_split s sg :
  findsig table s = Some sg →
  ∃ pre post, table = pre ++ sg :: post ∧ ∀ r, r ∈ pre → sig r ≠ s.
Proof.
  induction table as [|a rest IH]; simpl; [done|].
  destruct (Z.eqb_spec (sig a) s) as [E|E].
  - intros [= <-]. exists [], rest. split; [done|]. intros r Hr. inversion Hr.
  - intros H. destruct (IH H) as (pre & post & -> & Hpre).
    exists (a :: pre), post. split; [done|].
    intros r Hr. apply elem_of_cons in Hr as [->|Hr]; auto.
Qed.

Lemma findsig_elem r :
  r ∈ table → ∃ r0, findsig table (sig r) = Some r0 ∧ sig r0 = sig r.
Proof.
  intros Hr. destruct (findsig table (sig r)) as [r0|] eqn:E.
  - exists r0. split; [done|]. by apply (findsig_sig table).
  - destruct (proj1 (findsig_None table (sig r)) E r Hr). done.
Qed.

(** X1.  [findsig] returns the first row, in table order, that carries
    the number asked for: it answers [sg] exactly when the table is
    some rows without that number, then [sg], which has it, then the
    rest; and it answers nil exactly when no row has the number. *)
Theorem findsig_first_match (s : Z) (sg : Sig) :
  (findsig table s = Some sg ↔
     ∃ pre post, table = pre ++ sg :: post ∧ sig sg = s ∧
                 ∀ r, r ∈ pre → sig r ≠ s)
  ∧ (findsig table s = None ↔ ∀ r, r ∈ table → sig r ≠ s).
Proof.
  split; [|apply findsig_None]. split.
  - intros H. destruct (findsig_split s sg H) as (pre & post & E & Hpre).
    exists pre, post. repeat split; try done. by apply (findsig_sig table).
  - intros (pre & post & E & <- & Hpre). by apply (findsig_first table pre sg post).
Qed.

(** X2.  When no two rows carry the same number, every row of the table
    is the one [findsig] returns for its number. *)
Theorem findsig_own_row (r : Sig) :
  NoDup (sig <$> table) →
  r ∈ table →
  findsig table (sig r) = Some r.
Proof.
  induction table as [|a rest IH]; simpl; intros Hnd Hr; [inversion Hr|].
  apply NoDup_cons in Hnd as [Ha Hnd].
  apply elem_of_cons in Hr as [->|Hr]; [by rewrite Z.eqb_refl|].
  destruct (Z.eqb_spec (sig a) (sig r)) as [E|E]; [|by apply IH].
  destruct Ha. rewrite E. by apply list_elem_of_fmap_2.
Qed.

End Lookup.

(** ** What initialization keeps and what it leaves alone *)

Section InitFrame.

Context (p : Platform) (table : list Sig).

Lemma handler_lookup n st st' :
  handlers st' !! n = handlers st !! n → handler n st' = handler n st.
Proof. intros H. unfold handler, sigaction_get. by rewrite H. Qed.

(** A row of the table leaves the slot of its own signal taken. *)
Lemma noteinit_row_takes sg st :
  sg ∈ table → handler (sig sg) (noteinit_row p table sg st) ≠ SIG_DFL.
Proof.
  intros Hin. destruct (decide (handler (sig sg) st = SIG_DFL)) as [Hd|Hd].
  - destruct (findsig_elem table sg Hin) as (r0 & Hfind & Hsig).
    rewrite noteinit_row_default by done.
    rewrite (notifyseton_found p table _ _ r0) by done.
    apply (installed_not_default p r0 (notified sg)). simpl.
    apply lookup_insert_eq.
  - by rewrite noteinit_row_occupied.
Qed.

Lemma noteinit_loop_stays_taken rows st n :
  handler n st ≠ SIG_DFL → handler n (noteinit_loop p table rows st) ≠ SIG_DFL.
Proof.
  intros Hn.
  destruct (noteinit_loop_occupied p table rows st n Hn) as [E _].
  by rewrite (handler_lookup _ _ _ E).
Qed.

Lemma noteinit_loop_takes rows st :
  (∀ r, r ∈ rows → r ∈ table) →
  ∀ r, r ∈ rows → handler (sig r) (noteinit_loop p table rows st) ≠ SIG_DFL.
Proof.
  revert st. induction rows as [|a rows IH]; intros st Hsub r Hr; [inversion Hr|].
  simpl. apply elem_of_cons in Hr as [->|Hr].
  - apply noteinit_loop_stays_taken, noteinit_row_takes, Hsub. by left.
  - apply IH; [|done]. intros r' Hr'. apply Hsub. by right.
Qed.

Lemma noteinit_loop_all_taken rows st :
  (∀ r, r ∈ rows → handler (sig r) st ≠ SIG_DFL) →
  noteinit_loop p table rows st = st.
Proof.
  induction rows as [|a rows IH]; simpl; [done|]. intros Hall.
  rewrite noteinit_row_occupied by (apply Hall; by left).
  apply IH. intros r Hr. apply Hall. by right.
Qed.

(** The first row for a signal, met with the slot at the platform
    default, decides what the slot holds after the whole loop. *)
Lemma noteinit_installs_first pre r0 post st :
  table = pre ++ r0 :: post →
  (∀ r, r ∈ pre → sig r ≠ sig r0) →
  handler (sig r0) st = SIG_DFL →
  handlers (noteinit p table st) !! sig r0 = Some (installed p r0 (notified r0)).
Proof.
  intros Htab Hpre Hdfl.
  assert (Hfind : findsig table (sig r0) = Some r0)
    by (by apply (findsig_first table pre r0 post)).
  unfold noteinit. rewrite Htab at 2. rewrite noteinit_loop_app. simpl.
  set (st1 := noteinit_loop p table pre st).
  assert (Hdfl1 : handler (sig r0) st1 = SIG_DFL).
  { rewrite <- Hdfl. apply handler_lookup.
    by destruct (noteinit_loop_other p table pre st (sig r0) Hpre). }
  pose proof (noteinit_row_installs p table r0 st1 Hfind Hdfl1) as Hrow.
  destruct (noteinit_loop_occupied p table post
              (noteinit_row p table r0 st1) (sig r0)) as [E _].
  - by eapply installed_not_default.
  - by rewrite E.
Qed.

(** X3.  After [noteinit] the slot of every row's signal is taken (not
    at the platform default), so running [noteinit] once more changes
    nothing. *)
Theorem noteinit_idempotent (st : State) :
  (∀ r, r ∈ table → handler (sig r) (noteinit p table st) ≠ SIG_DFL)
  ∧ noteinit p table (noteinit p table st) = noteinit p table st.
Proof.
  assert (H : ∀ r, r ∈ table → handler (sig r) (noteinit p table st) ≠ SIG_DFL)
    by (by apply noteinit_loop_takes).
  split; [exact H|]. by apply noteinit_loop_all_taken.
Qed.

(** X4.  A handler that was installed before the first [notify] is not
    replaced: a signal whose slot is not at the platform default keeps
    its slot, with flags and mask, and its bit in the process mask. *)
Theorem notify_keeps_installed_handler (f : option nat) (n : Z) (st : State) :
  handler n st ≠ SIG_DFL →
  let st' := snd (notify p table f st) in
  handlers st' !! n = handlers st !! n ∧ (n ∈ blocked st' ↔ n ∈ blocked st).
Proof.
  intros Hn. unfold notify. simpl.
  destruct (negb (nonzero (init st))); [|done].
  apply (noteinit_loop_occupied p table table
           (set_init 1 (set_notifyf f st)) n Hn).
Qed.

(** X5.  [notify] sets slots and mask bits of the signals of the
    table only: for a number without a row, the handler slot and the bit
    in the mask are as before. *)
Theorem notify_leaves_unlisted (f : option nat) (n : Z) (st : State) :
  (∀ r, r ∈ table → sig r ≠ n) →
  let st' := snd (notify p table f st) in
  handlers st' !! n = handlers st !! n
  ∧ (n ∈ blocked st' ↔ n ∈ blocked st).
Proof.
  intros Hn. unfold notify. simpl.
  destruct (negb (nonzero (init st))); [|done].
  apply (noteinit_loop_other p table table
           (set_init 1 (set_notifyf f st)) n Hn).
Qed.

End InitFrame.

Section InitTable.

Context (p : Platform).

(** Every row of [sigs] asks for the notify function. *)
Lemma sigs_notified r : r ∈ sigs p → notified r = 1.
Proof.
  unfold sigs. intros Hr.
  destruct (SIGEMT p), (SIGINFO p); simpl in Hr; split_rows Hr; reflexivity.
Qed.

(** X6.  The first [notify] of a process installs [signotify] for every
    signal of [sigs] whose slot it finds at the platform default, with
    every signal blocked while the handler runs; where the signal has
    one row only, system calls restart exactly when that row says so. *)
Theorem notify_installs_signotify (f : option nat) (r : Sig) (st : State) :
  init st = 0 →
  r ∈ sigs p →
  handler (sig r) st = SIG_DFL →
  let st' := snd (notify p (sigs p) f st) in
  handler (sig r) st' = Fsignotify
  ∧ sa_mask (sigaction_get (sig r) st') = sigfillset
  ∧ (findsig (sigs p) (sig r) = Some r →
     sa_flags (sigaction_get (sig r) st')
       = if nonzero (restart r) then SA_RESTART p else 0).
Proof.
  intros Hinit Hr Hdfl st'.
  assert (Hst : st' = noteinit p (sigs p) (set_init 1 (set_notifyf f st))).
  { unfold st', notify, nonzero. simpl. by rewrite Hinit. }
  clearbody st'. subst st'.
  destruct (findsig_elem (sigs p) r Hr) as (r0 & Hfind & Hsig).
  destruct (findsig_split (sigs p) (sig r) r0 Hfind) as (pre & post & Htab & Hpre).
  assert (Hr0 : r0 ∈ sigs p).
  { rewrite Htab. apply elem_of_app. right. by left. }
  pose proof (noteinit_installs_first p (sigs p) pre r0 post
                (set_init 1 (set_notifyf f st)) Htab) as Hslot.
  rewrite Hsig in Hslot. specialize (Hslot Hpre Hdfl).
  unfold handler, sigaction_get. rewrite Hslot.
  unfold installed. rewrite (sigs_notified r0 Hr0).
  split; [done|]. split; [done|].
  intros Hown. rewrite Hfind in Hown. injection Hown as ->.
  cbn [default sa_flags]. by destruct (nonzero (restart r)).
Qed.

(** X7.  What [notifyon] or [notifyoff] set up before the first
    [notify] stays: initialization passes over the signal, so a note
    detached beforehand is still swallowed by [signonotify], and the
    mask bit of its signal is as [notifyoff] left it. *)
Theorem notifyoff_survives_notify
    (_p9strsig : string → Z) (table : list Sig)
    (msg : string) (sg : Sig) (f : option nat) (st : State) :
  findsig table (_p9strsig msg) = Some sg →
  let s := _p9strsig msg in
  let st' := snd (notify p table f (notifyoff p _p9strsig table msg st)) in
  handler s st' = Fsignonotify
  ∧ handlers st' !! s = Some (installed p sg 0)
  ∧ (s ∈ blocked st' ↔ s ∈ blocked st).
Proof.
  intros Hfind s st'.
  set (st1 := notifyoff p _p9strsig table msg st).
  assert (Hslot : handlers st1 !! s = Some (installed p sg 0)).
  { unfold st1, notifyoff. fold s. rewrite (notifyseton_found p table s 0 sg) by done.
    simpl. apply lookup_insert_eq. }
  assert (Hb : blocked st1 = blocked st).
  { unfold st1, notifyoff. fold s. by rewrite (notifyseton_found p table s 0 sg). }
  assert (Htaken : handler s st1 ≠ SIG_DFL) by (by eapply installed_not_default).
  assert (Hkeep : handlers st' !! s = handlers st1 !! s
                  ∧ (s ∈ blocked st' ↔ s ∈ blocked st1)).
  { unfold st'. fold st1. unfold notify. simpl.
    destruct (negb (nonzero (init st1))); [|done].
    apply (noteinit_loop_occupied p table table
             (set_init 1 (set_notifyf f st1)) s Htaken). }
  destruct Hkeep as [Hh Hm].
  split; [|split].
  - unfold handler, sigaction_get. by rewrite Hh, Hslot.
  - by rewrite Hh.
  - by rewrite Hm, Hb.
Qed.

End InitTable.

(** ** How the configuration calls compose *)

Section Compose.

Context (p : Platform) (_p9strsig : string → Z) (table : list Sig).












(** X10.  A configuration call sets the mask bit and the slot of one
    signal: for every other number the bit in the mask and the handler
    slot are as before, whichever of the four calls is made, and
    whether or not the note has a row. *)
Theorem config_calls_frame (msg : string) (n : Z) (st : State) :
  n ≠ _p9strsig msg →
  let same (st' : State) : Prop :=
    (n ∈ blocked st' ↔ n ∈ blocked st)
    ∧ handlers st' !! n = handlers st !! n in
  same (noteenable _p9strsig msg st)
  ∧ same (notedisable _p9strsig msg st)
  ∧ same (notifyon p _p9strsig table msg st)
  ∧ same (notifyoff p _p9strsig table msg st).
Proof.
  intros Hn same. unfold same, noteenable, notedisable, notifyon, notifyoff.
  rewrite !notesetenable_handlers.
  repeat match goal with |- _ ∧ _ => split end;
    first [ by apply notesetenable_blocked_other
          | by apply notifyseton_blocked_other
          | by apply notifyseton_slot_other
          | done ].
Qed.

End Compose.

(** ** The ways out of the trampoline *)

Section Exits.

Context (p : Platform) (NCONT : Z) (_p9sigstr : Z → string).
Context (code : nat → string → M ()).

Lemma signotify_dflt_halts signo st :
  ∃ w st', signotify_dflt p signo st = Halt w st'.
Proof.
  destruct (signotify_dflt_taken p signo st) as (w & st' & E & _). eauto.
Qed.

(** The outcome of [signotify], by cases on how the handler call ends. *)
Lemma signotify_cases signo st :
  signotify p _p9sigstr code signo st =
    match notifyf st with
    | None => signotify_dflt p signo (p9setjmp signo st)
    | Some f =>
        match code f (_p9sigstr signo) (p9setjmp signo st) with
        | Ret _ st' => signotify_dflt p signo st'
        | Longjmp Notejmpbuf v st' =>
            if v =? 1 then signotify_dflt p signo (sigrestore st')
            else Ret () (sigrestore st')
        | Longjmp (Otherbuf id) v st' => Longjmp (Otherbuf id) v st'
        | Halt w st' => Halt w st'
        end
    end.
Proof.
  destruct (notifyf st) as [f|] eqn:Hf; [|by apply signotify_nil].
  destruct (code f (_p9sigstr signo) (p9setjmp signo st))
    as [[] st'|[|id] v st'|w st'] eqn:Hrun.
  - by apply (signotify_handler_returns p _p9sigstr code signo st f).
  - by apply (signotify_handler_jumps p _p9sigstr code signo st f).
  - by apply (signotify_handler_jumps_away p _p9sigstr code signo st f).
  - by apply (signotify_handler_halts p _p9sigstr code signo st f).
Qed.

(** X11.  [signotify] takes for itself the jumps to the note buffer and
    no others.  It is left by a jump in flight exactly when the
    handler's run ended in a jump to a buffer that is not the note
    buffer, and that jump goes on as it came; a jump to the note
    buffer, as [noted] makes, never gets past it. *)
Theorem signotify_catches_note_jumps (signo : Z) (st : State) (b : JmpRef) (v : Z) (st' : State) :
  signotify p _p9sigstr code signo st = Longjmp b v st' ↔
  ∃ f id, notifyf st = Some f ∧ b = Otherbuf id ∧
          code f (_p9sigstr signo) (p9setjmp signo st) = Longjmp (Otherbuf id) v st'.
Proof.
  rewrite signotify_cases. split.
  - intros H. destruct (notifyf st) as [f|].
    2: { destruct (signotify_dflt_halts signo (p9setjmp signo st)) as (w & s & E).
         congruence. }
    destruct (code f (_p9sigstr signo) (p9setjmp signo st))
      as [[] s|[|id] u s|w s] eqn:Hrun.
    + destruct (signotify_dflt_halts signo s) as (w & s' & E). congruence.
    + destruct (u =? 1); [|discriminate].
      destruct (signotify_dflt_halts signo (sigrestore s)) as (w & s' & E).
      congruence.
    + injection H as <- <- <-. by exists f, id.
    + discriminate.
  - intros (f & id & -> & -> & ->). done.
Qed.

(** X12.  [signotify] returns to the interrupted code only when a
    handler is registered and left by a jump to the note buffer whose
    value is not 1; the state is then the one at the jump with the
    signal mask the buffer holds.  A handler that jumps through [noted]
    must have called [noted(NCONT)]: returning from the handler, or any
    other [noted], does not let the process go on. *)
Theorem signotify_returns_only_after_jump (signo : Z) (st st' : State) :
  signotify p _p9sigstr code signo st = Ret () st' →
  ∃ f v s,
    notifyf st = Some f
    ∧ code f (_p9sigstr signo) (p9setjmp signo st) = Longjmp Notejmpbuf v s
    ∧ v ≠ 1
    ∧ st' = sigrestore s
    ∧ (∀ u st0, code f (_p9sigstr signo) (p9setjmp signo st)
                  = (noted NCONT u ;; mret ()) st0 → u = NCONT).
Proof.
  rewrite signotify_cases. intros H.
  destruct (notifyf st) as [f|].
  2: { destruct (signotify_dflt_halts signo (p9setjmp signo st)) as (w & s & E).
       congruence. }
  destruct (code f (_p9sigstr signo) (p9setjmp signo st))
    as [[] s|[|id] v s|w s] eqn:Hrun.
  - destruct (signotify_dflt_halts signo s) as (w & s' & E). congruence.
  - destruct (Z.eqb_spec v 1) as [->|Hv].
    + destruct (signotify_dflt_halts signo (sigrestore s)) as (w & s' & E).
      congruence.
    + injection H as <-. exists f, v, s. repeat split; try done.
      intros u st0 Hu. rewrite noted_then_ret in Hu.
      destruct (Z.eqb_spec u NCONT); [done|]. congruence.
  - discriminate.
  - discriminate.
Qed.

End Exits.

(** ** The further properties at concrete inputs *)

(** X2 on the table of Linux, whose rows have 21 different numbers. *)
Lemma findsig_own_row_witness :
  NoDup (sig <$> sigs linux) ∧ mkSig 17 1 0 1 ∈ sigs linux ∧
  findsig (sigs linux) 17 = Some (mkSig 17 1 0 1).
Proof.
  assert (H1 : NoDup (sig <$> sigs linux))
    by (refine (bool_decide_eq_true_1 _ _); vm_compute; reflexivity).
  assert (H2 : mkSig 17 1 0 1 ∈ sigs linux) by by_eval.
  exact (conj H1 (conj H2 (findsig_own_row (sigs linux) (mkSig 17 1 0 1) H1 H2))).
Defined.

(** X4 on Linux: a profiler has taken SIGVTALRM (26) before the first
    [notify]; its handler is still there afterwards. *)
Lemma notify_keeps_installed_witness :
  let st := sigaction_set 26 (mkSigaction (Fother 1) 0 sigemptyset) fresh in
  handler 26 st ≠ SIG_DFL ∧
  handlers (snd (notify linux (sigs linux) (Some 0%nat) st)) !! 26
    = Some (mkSigaction (Fother 1) 0 sigemptyset).
Proof.
  intros st.
  assert (H1 : handler 26 st ≠ SIG_DFL) by (vm_compute; discriminate).
  exact (conj H1
           (proj1 (notify_keeps_installed_handler linux (sigs linux)
                     (Some 0%nat) 26 st H1))).
Defined.

(** X5 on Linux: SIGSEGV (11) has no row, and a process that ignores it
    still does after [notify]. *)
Lemma notify_leaves_unlisted_witness :
  let st := sigaction_set 11 (mkSigaction SIG_IGN 0 sigemptyset) fresh in
  (∀ r, r ∈ sigs linux → sig r ≠ 11) ∧
  handlers (snd (notify linux (sigs linux) (Some 0%nat) st)) !! 11
    = Some (mkSigaction SIG_IGN 0 sigemptyset).
Proof.
  intros st.
  assert (H1 : ∀ r, r ∈ sigs linux → sig r ≠ 11).
  { intros r Hr. unfold sigs in Hr. simpl in Hr. split_rows Hr; simpl; lia. }
  exact (conj H1
           (proj1 (notify_leaves_unlisted linux (sigs linux)
                     (Some 0%nat) 11 st H1))).
Defined.

(** X6 on Linux, for the row of SIGCHLD in a fresh process. *)
Lemma notify_installs_signotify_witness :
  init fresh = 0 ∧ mkSig 17 1 0 1 ∈ sigs linux ∧ handler 17 fresh = SIG_DFL ∧
  handler 17 (snd (notify linux (sigs linux) (Some 0%nat) fresh)) = Fsignotify ∧
  sa_flags (sigaction_get 17 (snd (notify linux (sigs linux) (Some 0%nat) fresh)))
    = SA_RESTART linux.
Proof.
  assert (H1 : init fresh = 0) by reflexivity.
  assert (H2 : mkSig 17 1 0 1 ∈ sigs linux) by by_eval.
  assert (H3 : handler (sig (mkSig 17 1 0 1)) fresh = SIG_DFL) by reflexivity.
  pose proof (notify_installs_signotify linux (Some 0%nat) (mkSig 17 1 0 1)
                fresh H1 H2 H3) as (Hh & _ & Hf).
  exact (conj H1 (conj H2 (conj H3 (conj Hh (Hf eq_refl))))).
Defined.

(** X7 on Linux: "alarm" detached before the first [notify]. *)
Lemma notifyoff_survives_witness :
  findsig (sigs linux) (sample_strsig "alarm") = Some (mkSig 14 0 1 1) ∧
  handler 14
    (snd (notify linux (sigs linux) (Some 0%nat)
            (notifyoff linux sample_strsig (sigs linux) "alarm" fresh)))
    = Fsignonotify.
Proof.
  assert (H1 : findsig (sigs linux) (sample_strsig "alarm") = Some (mkSig 14 0 1 1))
    by reflexivity.
  exact (conj H1
           (proj1 (notifyoff_survives_notify linux sample_strsig (sigs linux)
                     "alarm" (mkSig 14 0 1 1) (Some 0%nat) fresh H1))).
Defined.


(** X10 on Linux: configuring "alarm" leaves SIGINT (2) as it was. *)
Lemma config_calls_frame_witness :
  let st := set_blocked (λ _, {[ 2 ]}) fresh in
  2 ≠ sample_strsig "alarm" ∧
  (2 ∈ blocked (notifyon linux sample_strsig (sigs linux) "alarm" st)
     ↔ 2 ∈ blocked st) ∧
  handlers (notifyon linux sample_strsig (sigs linux) "alarm" st) !! 2
    = handlers st !! 2.
Proof.
  intros st.
  assert (H1 : 2 ≠ sample_strsig "alarm") by (vm_compute; discriminate).
  pose proof (config_calls_frame linux sample_strsig (sigs linux) "alarm" 2 st H1)
    as (_ & _ & (Hb & Hh) & _).
  exact (conj H1 (conj Hb Hh)).
Defined.

(** X12 on Linux: handler 2 enables "alarm" and ends in [noted(NCONT)];
    [signotify] returns, and SIGALRM, unblocked at the jump, is blocked
    again in the state it returns with. *)
Lemma signotify_returns_witness :
  let at_jump := noteenable sample_strsig "alarm" (p9setjmp 14 (delivering 2)) in
  signotify linux sample_sigstr enabling_code 14 (delivering 2)
    = Ret () (sigrestore at_jump) ∧
  (14 ∉ blocked at_jump) ∧ (14 ∈ blocked (sigrestore at_jump)) ∧
  ∃ f v s, notifyf (delivering 2) = Some f ∧
           enabling_code f (sample_sigstr 14) (p9setjmp 14 (delivering 2))
             = Longjmp Notejmpbuf v s ∧
           v ≠ 1 ∧ sigrestore at_jump = sigrestore s.
Proof.
  intros at_jump.
  assert (H1 : signotify linux sample_sigstr enabling_code 14 (delivering 2)
               = Ret () (sigrestore at_jump)) by by_eval.
  refine (conj H1 (conj _ (conj _ _))); [by_eval | by_eval |].
  destruct (signotify_returns_only_after_jump linux 0 sample_sigstr enabling_code
              14 (delivering 2) (sigrestore at_jump) H1)
    as (f & v & s & Hf & Hrun & Hv & Hst & _).
  exists f, v, s. exact (conj Hf (conj Hrun (conj Hv Hst))).
Defined.

(** X11 on Linux: a handler that jumps to a buffer of its own leaves
    [signotify] in flight. *)
Lemma signotify_catches_note_jumps_witness :
  let own_code : nat → string → M () := λ _ _, p9longjmp (Otherbuf 0) 7 in
  signotify linux sample_sigstr own_code 14 (delivering 0)
    = Longjmp (Otherbuf 0) 7 (p9setjmp 14 (delivering 0)) ∧
  ∃ f id, notifyf (delivering 0) = Some f ∧
          own_code f (sample_sigstr 14) (p9setjmp 14 (delivering 0))
            = Longjmp (Otherbuf id) 7 (p9setjmp 14 (delivering 0)).
Proof.
  intros own_code.
  assert (H1 : signotify linux sample_sigstr own_code 14 (delivering 0)
               = Longjmp (Otherbuf 0) 7 (p9setjmp 14 (delivering 0))) by by_eval.
  refine (conj H1 _).
  destruct (proj1 (signotify_catches_note_jumps linux sample_sigstr own_code
                     14 (delivering 0) (Otherbuf 0) 7
                     (p9setjmp 14 (delivering 0))) H1)
    as (f & id & Hf & _ & Hrun).
  exists f, id. exact (conj Hf Hrun).
Defined.
